(** * basic_state_estimator: the launch description of the state-estimator node

    A shallow embedding of [launch/basic_state_estimator_launch.py].  The file
    holds one function, [generate_launch_description], which builds a launch
    description: five launch-argument declarations followed by one node record
    whose namespace and parameters are symbolic references to those arguments.

    The embedding keeps the two layers of the program apart:
    - build time: the Python function, run in a small monad [Py] that threads
      the external world and can raise;
    - launch time: the external launch runner, which resolves the symbolic
      references against the command-line overrides and spawns the process. *)

From stdpp Require Import base option strings list gmap fin_maps fin_sets.

(** ** Values that a launch description can hold *)

(** A field such as a namespace or a parameter value is either a Python string
    literal, fixed when the description is built, or a reference to a launch
    configuration that the runner looks up when it launches. *)
Inductive Value : Type :=
  | Text (s : string)
  | Config (variable_name : string).

Global Instance Value_eq_dec : EqDecision Value.
Proof. solve_decision. Defined.

(** Modelled from the spec: the record built by [DeclareLaunchArgument]; the
    class is declared in the launch library, outside this repository, and
    §3 gives its two fields. *)
Module LaunchArgument.
Record t : Type := mk {
  name : string;
  default_value : string
}.
End LaunchArgument.

(** Modelled from the spec: the record built by [Node]; the class is declared
    in launch_ros, outside this repository, and §3 gives its seven fields.
    Each element of [parameters] is a Python dict. *)
Module NodeLaunchSpec.
Record t : Type := mk {
  package : string;
  executable : string;
  name : string;
  namespace : Value;
  parameters : list (gmap string Value);
  output : string;
  emulate_tty : bool
}.
End NodeLaunchSpec.

(** The entries of a launch description, in the two kinds the file uses. *)
Inductive Entity : Type :=
  | Arg (a : LaunchArgument.t)
  | Proc (n : NodeLaunchSpec.t).

Module Description.
Record t : Type := mk { entities : list Entity }.
End Description.

(** ** The world outside the builder *)

(** A process as the runner spawns it: every field is a resolved string. *)
Module Process.
Record t : Type := mk {
  package : string;
  executable : string;
  name : string;
  namespace : string;
  parameters : list (gmap string string);
  output : string;
  emulate_tty : bool
}.
End Process.

(** External state: the [key:=value] overrides given on the command line of
    the launch runner, and the processes spawned so far. *)
Record World : Type := mkWorld {
  overrides : gmap string string;
  processes : list Process.t
}.

Inductive Exception : Type :=
  | SubstitutionFailure (variable_name : string).

Inductive Outcome (A : Type) : Type :=
  | Returned (a : A)
  | Raised (e : Exception).
Arguments Returned {A} a.
Arguments Raised {A} e.

(** ** The monad of Python computations *)

Definition Py (A : Type) : Type := World → Outcome A * World.

Global Instance Py_ret : MRet Py := λ A a w, (Returned a, w).

Global Instance Py_bind : MBind Py := λ A B f m w,
  match m w with
  | (Returned a, w') => f a w'
  | (Raised e, w') => (Raised e, w')
  end.

Definition raise {A : Type} (e : Exception) : Py A := λ w, (Raised e, w).

Definition result {A : Type} (m : Py A) (w : World) : Outcome A := (m w).1.
Definition world_after {A : Type} (m : Py A) (w : World) : World := (m w).2.

(** ** The constructors the source calls *)

(** Modelled from the spec: the four constructors come from the launch and
    launch_ros libraries, outside this repository.  §3 describes what they
    build as immutable value records constructed once per invocation, and
    §9 describes [LaunchConfiguration] as storing the argument name rather
    than a resolved value. *)
Definition DeclareLaunchArgument (name default_value : string)
  : Py Entity :=
  mret (Arg (LaunchArgument.mk name default_value)).

Definition LaunchConfiguration (variable_name : string) : Py Value :=
  mret (Config variable_name).

Definition Node (package executable name : string) (namespace : Value)
    (parameters : list (gmap string Value)) (output : string)
    (emulate_tty : bool) : Py Entity :=
  mret (Proc (NodeLaunchSpec.mk package executable name namespace parameters
                                output emulate_tty)).

Definition LaunchDescription (initial_entities : list Entity)
  : Py Description.t :=
  mret (Description.mk initial_entities).

(** ** The source function *)

(** [generate_launch_description], with the calls in the order in which Python
    evaluates them: the list elements from left to right, and inside the
    [Node] call the keyword arguments from left to right. *)
Definition generate_launch_description : Py Description.t :=
  a1 ← DeclareLaunchArgument "drone_id" "drone0";
  a2 ← DeclareLaunchArgument "odom_only" "False";
  a3 ← DeclareLaunchArgument "ground_truth" "False";
  a4 ← DeclareLaunchArgument "sensor_fusion" "False";
  a5 ← DeclareLaunchArgument "base_frame" "base_link";
  ns ← LaunchConfiguration "drone_id";
  p1 ← LaunchConfiguration "odom_only";
  p2 ← LaunchConfiguration "ground_truth";
  p3 ← LaunchConfiguration "sensor_fusion";
  p4 ← LaunchConfiguration "base_frame";
  node ← Node "basic_state_estimator" "basic_state_estimator_node"
              "basic_state_estimator" ns
              [ {[ "odom_only" := p1 ]};
                {[ "ground_truth" := p2 ]};
                {[ "sensor_fusion" := p3 ]};
                {[ "base_frame" := p4 ]} ]
              "screen" true;
  LaunchDescription [a1; a2; a3; a4; a5; node].

(** ** Reading a description *)

Definition arguments (d : Description.t) : list LaunchArgument.t :=
  omap (λ e, match e with Arg a => Some a | Proc _ => None end)
       (Description.entities d).

Definition nodes (d : Description.t) : list NodeLaunchSpec.t :=
  omap (λ e, match e with Arg _ => None | Proc n => Some n end)
       (Description.entities d).

Definition declared (d : Description.t) : gset string :=
  list_to_set (LaunchArgument.name <$> arguments d).

(** The launch configurations a value, a dict and a node refer to. *)
Definition refs_of_value (v : Value) : gset string :=
  match v with
  | Text _ => ∅
  | Config x => {[ x ]}
  end.

Definition refs_of_mapping (m : gmap string Value) : gset string :=
  ⋃ (refs_of_value <$> (map_to_list m).*2).

Definition refs_of_node (n : NodeLaunchSpec.t) : gset string :=
  refs_of_value (NodeLaunchSpec.namespace n)
  ∪ ⋃ (refs_of_mapping <$> NodeLaunchSpec.parameters n).

Definition references (d : Description.t) : gset string :=
  ⋃ (refs_of_node <$> nodes d).

(** The keys of a dict, in a list. *)
Definition keys (m : gmap string Value) : list string :=
  (map_to_list m).*1.

(** ** The launch runner *)

(** Modelled from the spec: the external launch runner, which is not part of
    this repository.  §3: a default value is used when no override is supplied,
    and a reference to an undeclared argument makes resolution fail.  §9: the
    references are resolved in a single pass immediately before process
    creation. *)
Definition perform (ctx : gmap string string) (v : Value) : option string :=
  match v with
  | Text s => Some s
  | Config x => ctx !! x
  end.

Definition visit_argument (ctx : gmap string string) (a : LaunchArgument.t)
  : gmap string string :=
  match ctx !! LaunchArgument.name a with
  | Some _ => ctx
  | None => <[ LaunchArgument.name a := LaunchArgument.default_value a ]> ctx
  end.

Definition resolve_mapping (ctx : gmap string string) (m : gmap string Value)
  : option (gmap string string) :=
  let r := omap (perform ctx) m in
  if decide (size r = size m) then Some r else None.

Definition resolve_node (ctx : gmap string string) (n : NodeLaunchSpec.t)
  : option Process.t :=
  ns ← perform ctx (NodeLaunchSpec.namespace n);
  ps ← mapM (resolve_mapping ctx) (NodeLaunchSpec.parameters n);
  Some (Process.mk (NodeLaunchSpec.package n) (NodeLaunchSpec.executable n)
                   (NodeLaunchSpec.name n) ns ps
                   (NodeLaunchSpec.output n) (NodeLaunchSpec.emulate_tty n)).

Definition spawn (p : Process.t) : Py unit :=
  λ w, (Returned (), mkWorld (overrides w) (processes w ++ [p])).

Fixpoint visit_all (ctx : gmap string string) (es : list Entity) : Py unit :=
  match es with
  | [] => mret ()
  | Arg a :: es' => visit_all (visit_argument ctx a) es'
  | Proc n :: es' =>
      match resolve_node ctx n with
      | Some p => spawn p ≫= λ _, visit_all ctx es'
      | None => raise (SubstitutionFailure "")
      end
  end.

Definition launch (d : Description.t) : Py unit :=
  λ w, visit_all (overrides w) (Description.entities d) w.

(** The context in which the runner resolves the entities that follow [es]. *)
Definition context_after (ctx : gmap string string) (es : list Entity)
  : gmap string string :=
  foldl (λ c e, match e with Arg a => visit_argument c a | Proc _ => c end)
        ctx es.

(** The declared default of argument [x], when [x] is declared. *)
Definition declared_default (args : list LaunchArgument.t) (x : string)
  : option string :=
  LaunchArgument.default_value <$>
    head (filter (λ a, LaunchArgument.name a = x) args).

(** The value of launch argument [x] in a session started with overrides
    [ov]: the override when there is one, else the declared default. *)
Definition argument_value (ov : gmap string string) (d : Description.t)
    (x : string) : option string :=
  match ov !! x with
  | Some s => Some s
  | None => declared_default (arguments d) x
  end.

(** ** Computations that only build a value *)

(** [builds m a]: in every world [m] returns [a], raises nothing and leaves
    the world as it found it. *)
Definition builds {A : Type} (m : Py A) (a : A) : Prop :=
  ∀ w, m w = (Returned a, w).

(** Calling a builder twice in a row and pairing the two results. *)
Definition twice {A : Type} (m : Py A) : Py (A * A) :=
  x ← m; y ← m; mret (x, y).

(** ** Lemmas on builders *)

Lemma builds_ret {A : Type} (a : A) : builds (mret a) a.
Proof. intros w. reflexivity. Qed.

Lemma builds_bind {A B : Type} (m : Py A) (f : A → Py B) (a : A) (b : B) :
  builds m a → builds (f a) b → builds (m ≫= f) b.
Proof.
  intros Hm Hf w. unfold mbind, Py_bind. rewrite (Hm w). apply Hf.
Qed.

Lemma builds_DeclareLaunchArgument (x v : string) :
  builds (DeclareLaunchArgument x v) (Arg (LaunchArgument.mk x v)).
Proof. apply builds_ret. Qed.

Lemma builds_LaunchConfiguration (x : string) :
  builds (LaunchConfiguration x) (Config x).
Proof. apply builds_ret. Qed.

Lemma builds_Node pkg exe nm ns ps out tty :
  builds (Node pkg exe nm ns ps out tty)
         (Proc (NodeLaunchSpec.mk pkg exe nm ns ps out tty)).
Proof. apply builds_ret. Qed.

Lemma builds_LaunchDescription (es : list Entity) :
  builds (LaunchDescription es) (Description.mk es).
Proof. apply builds_ret. Qed.

Create HintDb builder.
#[export] Hint Resolve builds_DeclareLaunchArgument builds_LaunchConfiguration
  builds_Node builds_LaunchDescription : builder.

Ltac step_builder :=
  repeat (eapply builds_bind; [ solve [ eauto with builder ] | cbv beta ]);
  eauto with builder.

(** The builder is such a computation. *)
Lemma generate_launch_description_builds :
  ∃ d, builds generate_launch_description d.
Proof. eexists. unfold generate_launch_description. step_builder. Qed.

Lemma builds_result {A : Type} (m : Py A) (a : A) (w : World) :
  builds m a → result m w = Returned a.
Proof. intros H. unfold result. by rewrite (H w). Qed.

Lemma builds_world_after {A : Type} (m : Py A) (a : A) (w : World) :
  builds m a → world_after m w = w.
Proof. intros H. unfold world_after. by rewrite (H w). Qed.

(** ** The runner's resolution context *)

Lemma visit_argument_lookup ctx a x :
  visit_argument ctx a !! x =
    match ctx !! x with
    | Some s => Some s
    | None => if decide (LaunchArgument.name a = x)
              then Some (LaunchArgument.default_value a) else None
    end.
Proof.
  unfold visit_argument.
  destruct (ctx !! LaunchArgument.name a) as [s|] eqn:Ha.
  - destruct (ctx !! x) as [t|] eqn:Hx; [done|].
    case_decide; [congruence | done].
  - rewrite lookup_insert. case_decide as Hd.
    + subst x. by rewrite Ha.
    + by destruct (ctx !! x).
Qed.

Lemma context_after_args args : ∀ ctx x,
  context_after ctx (Arg <$> args) !! x =
    match ctx !! x with
    | Some s => Some s
    | None => declared_default args x
    end.
Proof.
  induction args as [|a args IH]; intros ctx x; simpl.
  - by destruct (ctx !! x).
  - rewrite IH, visit_argument_lookup. unfold declared_default.
    rewrite filter_cons.
    destruct (ctx !! x) as [s|]; [done|].
    case_decide; [done|].
    reflexivity.
Qed.

Lemma visit_all_args args : ∀ ctx es,
  visit_all ctx ((Arg <$> args) ++ es) =
  visit_all (context_after ctx (Arg <$> args)) es.
Proof.
  induction args as [|a args IH]; intros ctx es; simpl; [done|]. apply IH.
Qed.

Lemma resolve_mapping_singleton ctx k v :
  resolve_mapping ctx {[ k := v ]} = (λ s, {[ k := s ]}) <$> perform ctx v.
Proof.
  unfold resolve_mapping.
  destruct (perform ctx v) as [s|] eqn:Hv; simpl.
  - rewrite (omap_singleton_Some _ _ _ s Hv).
    rewrite !map_size_singleton. by rewrite decide_True.
  - rewrite (omap_singleton_None _ _ _ Hv).
    rewrite map_size_singleton, map_size_empty. by rewrite decide_False.
Qed.

Lemma launch_args_node args n ov procs p :
  resolve_node (context_after ov (Arg <$> args)) n = Some p →
  launch (Description.mk ((Arg <$> args) ++ [Proc n])) (mkWorld ov procs)
  = (Returned (), mkWorld ov (procs ++ [p])).
Proof.
  intros Hp. unfold launch. cbn [Description.entities overrides].
  rewrite visit_all_args. cbn [visit_all]. rewrite Hp. reflexivity.
Qed.

Lemma argument_value_context ov args n x :
  context_after ov (Arg <$> args) !! x
  = argument_value ov (Description.mk ((Arg <$> args) ++ [Proc n])) x.
Proof.
  rewrite context_after_args. unfold argument_value, arguments.
  cbn [Description.entities]. rewrite omap_app. cbn [omap list_omap].
  rewrite app_nil_r.
  replace (omap _ (Arg <$> args)) with args; [done|].
  induction args as [|a args IH]; [done|]. cbn. by rewrite <- IH.
Qed.

Lemma argument_value_override ov d x s :
  ov !! x = Some s → argument_value ov d x = Some s.
Proof. intros H. unfold argument_value. by rewrite H. Qed.

Lemma argument_value_default ov d x :
  ov !! x = None → argument_value ov d x = declared_default (arguments d) x.
Proof. intros H. unfold argument_value. by rewrite H. Qed.

Lemma override_or_default (o : option string) (s0 : string) :
  match o with Some s => Some s | None => Some s0 end = Some (default s0 o).
Proof. by destruct o. Qed.

(** Evaluates the declared defaults of a literal argument list. *)
Ltac eval_defaults :=
  repeat match goal with
  | |- context [declared_default ?l ?x] =>
      let v := eval vm_compute in (declared_default l x) in
      change (declared_default l x) with v
  end.

(** Resolves a node whose references all hit declared arguments. *)
Ltac resolve_literal_node :=
  unfold resolve_node;
  cbn [NodeLaunchSpec.namespace NodeLaunchSpec.parameters mapM perform];
  rewrite !resolve_mapping_singleton; cbn [perform];
  rewrite !context_after_args; eval_defaults;
  rewrite !override_or_default; reflexivity.

(** ** The shape of the returned description *)

(** C1: in every world the builder returns a sequence made of five argument
    declarations followed by one node record, and nothing else; the declared
    names are drone_id, odom_only, ground_truth, sensor_fusion and base_frame,
    in that order, each exactly once. *)
Theorem C1_five_arguments_then_one_node (w : World) :
  ∃ d args n,
    result generate_launch_description w = Returned d
    ∧ Description.entities d = (Arg <$> args) ++ [Proc n]
    ∧ length args = 5
    ∧ LaunchArgument.name <$> args
      = ["drone_id"; "odom_only"; "ground_truth"; "sensor_fusion";
         "base_frame"]
    ∧ NoDup (LaunchArgument.name <$> args).
Proof.
  eexists _, [_; _; _; _; _], _.
  split; [reflexivity|]. split; [reflexivity|]. split; [reflexivity|].
  split; [reflexivity|].
  compute_done.
Qed.

(** C3: in every world, whatever overrides it holds, the node record has
    package basic_state_estimator, executable basic_state_estimator_node,
    name basic_state_estimator, output screen and emulate_tty true; the
    process the runner spawns from it carries the same five values for
    every set of overrides. *)
Theorem C3_node_fixed_fields (w : World) :
  ∃ d n,
    result generate_launch_description w = Returned d
    ∧ nodes d = [n]
    ∧ NodeLaunchSpec.package n = "basic_state_estimator"
    ∧ NodeLaunchSpec.executable n = "basic_state_estimator_node"
    ∧ NodeLaunchSpec.name n = "basic_state_estimator"
    ∧ NodeLaunchSpec.output n = "screen"
    ∧ NodeLaunchSpec.emulate_tty n = true
    ∧ ∀ ov procs, ∃ p,
        launch d (mkWorld ov procs) = (Returned (), mkWorld ov (procs ++ [p]))
        ∧ Process.package p = "basic_state_estimator"
        ∧ Process.executable p = "basic_state_estimator_node"
        ∧ Process.name p = "basic_state_estimator"
        ∧ Process.output p = "screen"
        ∧ Process.emulate_tty p = true.
Proof.
  eexists _, _. split; [reflexivity|]. split; [reflexivity|].
  do 5 (split; [reflexivity|]).
  intros ov procs. eexists. split.
  - apply (launch_args_node [_; _; _; _; _]). resolve_literal_node.
  - by repeat split.
Qed.

(** C4: the five declarations carry the defaults drone0, False, False, False
    and base_link, paired with drone_id, odom_only, ground_truth,
    sensor_fusion and base_frame. *)
Theorem C4_default_values (w : World) :
  ∃ d,
    result generate_launch_description w = Returned d
    ∧ (λ a, (LaunchArgument.name a, LaunchArgument.default_value a))
        <$> arguments d
      = [("drone_id", "drone0"); ("odom_only", "False");
         ("ground_truth", "False"); ("sensor_fusion", "False");
         ("base_frame", "base_link")].
Proof. eexists. split; reflexivity. Qed.

(** ** Late binding *)

(** C2: the node record has exactly four parameter entries; each is a dict
    with a single key, taken from odom_only, ground_truth, sensor_fusion and
    base_frame, whose value is a reference to the launch argument of the same
    name, and each of the four names is the key of exactly one entry.  When
    the runner launches the description, under any overrides, each entry
    resolves to the value of its argument; overriding any of the four
    arguments with a value [s] makes the entry of that name resolve to [s],
    and without an override of it the entry resolves to the declared
    default. *)
Theorem C2_parameters_late_bound (w : World) :
  ∃ d n,
    result generate_launch_description w = Returned d
    ∧ nodes d = [n]
    ∧ length (NodeLaunchSpec.parameters n) = 4
    ∧ Forall (λ m, size m = 1
                   ∧ ∃ k, k ∈ ["odom_only"; "ground_truth"; "sensor_fusion";
                               "base_frame"]
                          ∧ m !! k = Some (Config k))
             (NodeLaunchSpec.parameters n)
    ∧ Forall (λ k, (∃ m, m ∈ NodeLaunchSpec.parameters n
                         ∧ m !! k = Some (Config k))
                   ∧ length (filter (λ m, is_Some (m !! k))
                                    (NodeLaunchSpec.parameters n)) = 1)
             ["odom_only"; "ground_truth"; "sensor_fusion"; "base_frame"]
    ∧ (∀ ov procs, ∃ p,
         launch d (mkWorld ov procs)
         = (Returned (), mkWorld ov (procs ++ [p]))
         ∧ Forall2 (λ m r, ∃ k s, m !! k = Some (Config k)
                                  ∧ argument_value ov d k = Some s
                                  ∧ r = {[ k := s ]})
                   (NodeLaunchSpec.parameters n) (Process.parameters p))
    ∧ Forall (λ k, ∀ ov procs s, ∃ p,
                launch d (mkWorld (<[ k := s ]> ov) procs)
                = (Returned (), mkWorld (<[ k := s ]> ov) (procs ++ [p]))
                ∧ {[ k := s ]} ∈ Process.parameters p
                ∧ Forall (λ r, ∀ s', r !! k = Some s' → s' = s)
                         (Process.parameters p))
             ["odom_only"; "ground_truth"; "sensor_fusion"; "base_frame"]
    ∧ Forall (λ k, ∀ ov procs, ∃ p s0,
                declared_default (arguments d) k = Some s0
                ∧ launch d (mkWorld (delete k ov) procs)
                  = (Returned (), mkWorld (delete k ov) (procs ++ [p]))
                ∧ {[ k := s0 ]} ∈ Process.parameters p)
             ["odom_only"; "ground_truth"; "sensor_fusion"; "base_frame"]
    ∧ (∀ ov k s, argument_value (<[ k := s ]> ov) d k = Some s).
Proof.
  eexists _, _. split; [reflexivity|]. split; [reflexivity|].
  split; [reflexivity|]. split; [|split; [|split; [|split; [|split]]]].
  - repeat apply Forall_cons_2; try apply Forall_nil_2;
      (split; [apply map_size_singleton|]); eexists;
      (split; [|apply lookup_singleton_eq]); repeat constructor.
  - repeat apply Forall_cons_2; try apply Forall_nil_2;
      (split; [|by vm_compute]); eexists;
      (split; [|apply lookup_singleton_eq]); repeat constructor.
  - intros ov procs. eexists. split.
    + apply (launch_args_node [_; _; _; _; _]). resolve_literal_node.
    + cbn [Process.parameters].
      repeat apply Forall2_cons_2; try apply Forall2_nil_2;
        eexists _, _;
        (split; [apply lookup_singleton_eq|]); (split; [|reflexivity]);
        unfold argument_value;
        match goal with |- context [ov !! ?x] => by destruct (ov !! x) end.
  - repeat apply Forall_cons_2; try apply Forall_nil_2;
      intros ov procs s; eexists;
      (split; [apply (launch_args_node [_; _; _; _; _]);
               resolve_literal_node|]);
      cbn [Process.parameters]; rewrite lookup_insert_eq; split.
    all: try (rewrite !elem_of_cons; naive_solver).
    all: repeat apply Forall_cons_2; try apply Forall_nil_2; intros s' Hs';
      first [ rewrite lookup_singleton_eq in Hs'; by simplify_eq/=
            | by rewrite lookup_singleton_ne in Hs' ].
  - repeat apply Forall_cons_2; try apply Forall_nil_2;
      intros ov procs; eexists _, _;
      (split; [by vm_compute|]);
      (split; [apply (launch_args_node [_; _; _; _; _]);
               resolve_literal_node|]);
      cbn [Process.parameters]; rewrite lookup_delete_eq;
      rewrite !elem_of_cons; naive_solver.
  - intros ov k s. apply argument_value_override, lookup_insert_eq.
Qed.

(** Overriding ground_truth=True, the example of the spec, and nothing else. *)
Example ground_truth_overridden :
  ∃ d p,
    result generate_launch_description (mkWorld {[ "ground_truth" := "True" ]} [])
    = Returned d
    ∧ processes (world_after (launch d)
                             (mkWorld {[ "ground_truth" := "True" ]} []))
      = [p]
    ∧ Process.namespace p = "drone0"
    ∧ Process.parameters p
      = [ {[ "odom_only" := "False" ]}; {[ "ground_truth" := "True" ]};
          {[ "sensor_fusion" := "False" ]}; {[ "base_frame" := "base_link" ]} ].
Proof. eexists _, _. split; [reflexivity|]. by vm_compute. Qed.

(** C5: the namespace of the node record is a reference to the launch
    argument drone_id, not a string literal; in any resolution context it
    performs to the value of drone_id there, and the spawned process runs in
    the namespace that drone_id has in the session: its override, or else its
    declared default. *)
Theorem C5_namespace_late_bound (w : World) :
  ∃ d n,
    result generate_launch_description w = Returned d
    ∧ nodes d = [n]
    ∧ NodeLaunchSpec.namespace n = Config "drone_id"
    ∧ (∀ s, NodeLaunchSpec.namespace n ≠ Text s)
    ∧ (∀ ctx, perform ctx (NodeLaunchSpec.namespace n) = ctx !! "drone_id")
    ∧ (∀ ov procs, ∃ p,
         launch d (mkWorld ov procs)
         = (Returned (), mkWorld ov (procs ++ [p]))
         ∧ argument_value ov d "drone_id" = Some (Process.namespace p)).
Proof.
  eexists _, _. split; [reflexivity|]. split; [reflexivity|].
  split; [reflexivity|]. split; [done|]. split; [done|].
  intros ov procs. eexists. split.
  - apply (launch_args_node [_; _; _; _; _]). resolve_literal_node.
  - unfold argument_value. by destruct (ov !! "drone_id").
Qed.

(** C6: every launch-configuration name that the returned description refers
    to, through the namespace or through a parameter value, is the name of an
    argument the same description declares. *)
Theorem C6_references_declared (w : World) :
  ∃ d,
    result generate_launch_description w = Returned d
    ∧ references d ⊆ declared d.
Proof.
  eexists. split; [reflexivity|].
  unfold references, declared, nodes, arguments, refs_of_node, refs_of_mapping.
  cbn [Description.entities omap list_omap fmap list_fmap union_list
       NodeLaunchSpec.namespace NodeLaunchSpec.parameters
       LaunchArgument.name list_to_set foldr refs_of_value].
  rewrite !map_to_list_singleton.
  cbn [fmap list_fmap snd union_list foldr refs_of_value].
  set_solver.
Qed.

(** C10: the keys of the four parameter entries are, in this order,
    odom_only, ground_truth, sensor_fusion and base_frame; drone_id is a key
    of none of them. *)
Theorem C10_parameter_order (w : World) :
  ∃ d n,
    result generate_launch_description w = Returned d
    ∧ nodes d = [n]
    ∧ keys <$> NodeLaunchSpec.parameters n
      = [["odom_only"]; ["ground_truth"]; ["sensor_fusion"]; ["base_frame"]]
    ∧ Forall (λ m, m !! "drone_id" = None) (NodeLaunchSpec.parameters n).
Proof.
  eexists _, _. split; [reflexivity|]. split; [reflexivity|]. split.
  - unfold keys. cbn [fmap list_fmap NodeLaunchSpec.parameters].
    by rewrite !map_to_list_singleton.
  - repeat apply Forall_cons_2; try apply Forall_nil_2;
      by apply lookup_singleton_ne.
Qed.

(** ** The builder as a computation *)

(** C7: the result of the builder is the same in any two worlds, so it does
    not depend on external state, and two calls in a row return structurally
    equal descriptions. *)
Theorem C7_deterministic (w1 w2 : World) :
  result generate_launch_description w1 = result generate_launch_description w2
  ∧ ∃ d, result (twice generate_launch_description) w1 = Returned (d, d).
Proof.
  destruct generate_launch_description_builds as [d Hd]. split.
  - by rewrite !(builds_result _ d).
  - exists d. apply builds_result. unfold twice.
    eapply builds_bind; [exact Hd|]. eapply builds_bind; [exact Hd|].
    apply builds_ret.
Qed.

(** C8: in every world the builder returns a description and raises no
    exception. *)
Theorem C8_total_never_raises (w : World) :
  (∃ d, result generate_launch_description w = Returned d)
  ∧ ∀ e, result generate_launch_description w ≠ Raised e.
Proof.
  destruct generate_launch_description_builds as [d Hd].
  rewrite (builds_result _ d w Hd). split; [by exists d | done].
Qed.

(** C9: the builder leaves the world as it found it: the overrides are
    untouched and no process is added to the spawned ones. *)
Theorem C9_no_side_effects (w : World) :
  world_after generate_launch_description w = w
  ∧ processes (world_after generate_launch_description w) = processes w.
Proof.
  destruct generate_launch_description_builds as [d Hd].
  by rewrite (builds_world_after _ d w Hd).
Qed.

(** The runner, unlike the builder, does change the world: launching the
    returned description adds one process. *)
Lemma launch_spawns_one (w : World) :
  ∃ d p, result generate_launch_description w = Returned d
         ∧ launch d w
           = (Returned (), mkWorld (overrides w) (processes w ++ [p])).
Proof.
  destruct w as [ov procs]. eexists _, _. split; [reflexivity|].
  apply (launch_args_node [_; _; _; _; _]). resolve_literal_node.
Qed.

(** ** Use of the declared arguments *)


(** X1: every argument the description declares is referred to by the node,
    through its namespace or a parameter value: none is declared and left
    unused. *)
Theorem X1_declared_are_referenced (w : World) :
  ∃ d,
    result generate_launch_description w = Returned d
    ∧ declared d ⊆ references d.
Proof.
  eexists. split; [reflexivity|].
  unfold references, declared, nodes, arguments, refs_of_node, refs_of_mapping.
  cbn [Description.entities omap list_omap fmap list_fmap union_list
       NodeLaunchSpec.namespace NodeLaunchSpec.parameters
       LaunchArgument.name list_to_set foldr refs_of_value].
  rewrite !map_to_list_singleton.
  cbn [fmap list_fmap snd union_list foldr refs_of_value].
  set_solver.
Qed.

(** X2: the spawned process depends on the overrides only through the five
    declared arguments: two sets of overrides that agree on them make the
    runner spawn the same process, whatever else they hold. *)
Theorem X2_only_declared_overrides_matter
    (w : World) (ov1 ov2 : gmap string string) (procs : list Process.t) :
  Forall (λ x, ov1 !! x = ov2 !! x)
         ["drone_id"; "odom_only"; "ground_truth"; "sensor_fusion";
          "base_frame"] →
  ∃ d p,
    result generate_launch_description w = Returned d
    ∧ launch d (mkWorld ov1 procs) = (Returned (), mkWorld ov1 (procs ++ [p]))
    ∧ launch d (mkWorld ov2 procs) = (Returned (), mkWorld ov2 (procs ++ [p])).
Proof.
  intros H.
  repeat match goal with
  | H : Forall _ (_ :: _) |- _ =>
      apply Forall_cons_1 in H; destruct H as [? H]
  end.
  eexists _, _. split; [reflexivity|]. split.
  - apply (launch_args_node [_; _; _; _; _]). resolve_literal_node.
  - apply (launch_args_node [_; _; _; _; _]).
    unfold resolve_node.
    cbn [NodeLaunchSpec.namespace NodeLaunchSpec.parameters mapM perform].
    rewrite !resolve_mapping_singleton. cbn [perform].
    rewrite !context_after_args. eval_defaults.
    rewrite !override_or_default.
    repeat match goal with
    | E : ov1 !! _ = ov2 !! _ |- _ => rewrite <- E; clear E
    end.
    reflexivity.
Qed.

Lemma X2_witness :
  ∃ d p,
    result generate_launch_description (mkWorld ∅ []) = Returned d
    ∧ launch d (mkWorld {[ "verbose" := "1" ]} [])
      = (Returned (), mkWorld {[ "verbose" := "1" ]} [p])
    ∧ launch d (mkWorld ∅ []) = (Returned (), mkWorld ∅ [p]).
Proof.
  apply (X2_only_declared_overrides_matter
           (mkWorld ∅ []) {[ "verbose" := "1" ]} ∅ []).
  repeat constructor.
Defined.


